(** * SignalLab: index arithmetic and convolution alignment

    A shallow embedding of [src/app.py] and [src/signallab/plotting.py].

    - Time indices are Python integers: [Z].  The start indices come from
      [int(st.number_input(...))], lengths from [len]; NumPy keeps them in
      64-bit integers, far away from any overflow for inputs a text box can
      hold, so index arithmetic is plain integer arithmetic.
    - Samples are NumPy's float64.  The program is written out over a type
      [R] of samples with a zero, an addition and a multiplication, and no
      law is assumed of them: what is proved without the ring theory holds
      of binary64 as it holds of the integers, and both are instances below.
      The ring theory [Rth] stands for exact arithmetic; a statement that
      needs it says so, and rounding can break it.
    - [st.pyplot] is the only effect that carries data: every function that
      draws returns the figures it displayed, in order, together with its
      outcome (a value or a raised Python exception).  A figure records
      what [ax.stem] and the axis setters are called with; what Matplotlib
      does with it (it refuses empty stem data) is not part of the record.
    - [np.arange], array indexing and [np.convolve] are NumPy's; they are
      written out here the way NumPy computes them, sums included: a dot
      product is accumulated from 0, one product after the other. *)

From Stdlib Require Import ZArith List Bool Lia String Ascii Sorted.
From Stdlib Require Import Ring Ring_theory InitialRing.
From Stdlib Require Import DecimalString DecimalZ.
From Stdlib Require PrimFloat Uint63.
Import ListNotations.
Local Open Scope Z_scope.

(** ** Python outcomes and the display log *)

Inductive PyError : Type :=
| IndexError
| ValueError.

Inductive result (A : Type) : Type :=
| Ok (a : A)
| Raise (e : PyError).
Arguments Ok {A} a.
Arguments Raise {A} e.

(** [np.arange(a, b)] on integers: [a, a+1, ..., b-1], empty when [b <= a]. *)
Definition arange (a b : Z) : list Z :=
  map (fun k => a + Z.of_nat k) (seq 0 (Z.to_nat (b - a))).

(** [len(v)] as a Python integer. *)
Definition len {A : Type} (v : list A) : Z := Z.of_nat (List.length v).

(** ** Samples in binary64

    The integer [z], for [0 <= z < 2^63], as a float64 (exact up to 2^53,
    rounded to nearest beyond). *)
Definition float_of_Z (z : Z) : PrimFloat.float :=
  PrimFloat.of_uint63 (Uint63.of_Z z).


Section SignalLab.

Variable R : Type.
Variables (rO rI : R) (radd rmul rsub : R -> R -> R) (ropp : R -> R).
Hypothesis Rth : ring_theory rO rI radd rmul rsub ropp (@eq R).

Add Ring SampleRing : Rth.

(** A figure as [plot_signal] / [plot_signal_with_grid] build it: the stem
    data, the axis limits, the upper y limit, the tick positions, whether
    the grid is on, the title (when one is set) and the colour tag. *)
Record Figure : Type := mkFigure {
  n_values : list Z;
  signal_values : list R;
  xlim : Z * Z;
  ylim : R;
  xticks : list Z;
  grid : bool;
  title : option string;
  color : string
}.

(** A computation that displays figures and then returns or raises. *)
Definition Render (A : Type) : Type := (list Figure * result A)%type.

Definition ret {A : Type} (a : A) : Render A := ([], Ok a).

Definition bind {A B : Type} (m : Render A) (f : A -> Render B) : Render B :=
  match m with
  | (shown, Ok a) => let (shown', r) := f a in (shown ++ shown', r)
  | (shown, Raise e) => (shown, Raise e)
  end.

Notation "x <- m ;; k" := (bind m (fun x => k))
  (at level 61, m at next level, right associativity).
Notation "m ;;; k" := (bind m (fun _ => k))
  (at level 61, right associativity).

(** [st.pyplot(fig)] *)
Definition st_pyplot (fig : Figure) : Render unit := ([fig], Ok tt).

(** Lifting a pure outcome. *)
Definition lift {A : Type} (r : result A) : Render A := ([], r).

(** [for i in xs: body(i)] *)
Fixpoint for_each {A : Type} (xs : list A) (body : A -> Render unit)
  : Render unit :=
  match xs with
  | [] => ret tt
  | i :: rest => body i ;;; for_each rest body
  end.

(** ** NumPy array primitives used by the program *)

(** [x[j]] for an integer [j]: positions [0 .. len-1], negative [j] counts
    from the end, anything else raises [IndexError]. *)
Definition getitem (x : list R) (j : Z) : result R :=
  if (0 <=? j) && (j <? len x) then Ok (nth (Z.to_nat j) x rO)
  else if (- len x <=? j) && (j <? 0) then Ok (nth (Z.to_nat (j + len x)) x rO)
  else Raise IndexError.

(** [c * h]: scalar times array. *)
Definition scale (c : R) (h : list R) : list R := map (rmul c) h.

(** [n + i]: array plus scalar. *)
Definition shift (n : list Z) (i : Z) : list Z := map (fun t => t + i) n.

(** ** [signallab/plotting.py] *)

Definition plot_signal (n_values : list Z) (signal_values : list R)
    (title : string) (xlim : Z * Z) (ylim : R) (xticks : list Z)
    (color : string) : Figure :=
  mkFigure n_values signal_values xlim ylim xticks false (Some title) color.

Definition plot_signal_with_grid (n_values : list Z) (signal_values : list R)
    (xlim : Z * Z) (ylim : R) (xticks : list Z) (color : string) : Figure :=
  mkFigure n_values signal_values xlim ylim xticks true None color.

(** [np.dot] on two buffers and a count, as its loop accumulates it:
    [tmp = 0], then [tmp += a[i] * b[i]] for [i] from 0 to [n - 1]. *)
Fixpoint dot_from (tmp : R) (a b : list R) (n : nat) {struct n} : R :=
  match n, a, b with
  | S n', ai :: a', bi :: b' => dot_from (radd tmp (rmul ai bi)) a' b' n'
  | _, _, _ => tmp
  end.

Definition dot (a b : list R) (n : nat) : R := dot_from rO a b n.

(** [np.correlate(a, v, 'full')] for [len a >= len v >= 1], the way NumPy
    fills its output: a left ramp where the window of [v] grows from its last
    entry, a middle part where all of [v] slides over [a], and a right ramp
    where the window shrinks again. *)
Definition np_correlate_full (a v : list R) : list R :=
  let n1 := List.length a in
  let n2 := List.length v in
  let n_left := (n2 - 1)%nat in
  let n_right := (n2 - 1)%nat in
  map (fun i => dot a (skipn (n_left - i) v) (S i)) (seq 0 n_left)
  ++ map (fun i => dot (skipn i a) v n2) (seq 0 (n1 - n2 + 1))
  ++ map (fun i => dot (skipn (n1 - n2 + 1 + i) a) v (n2 - 1 - i))
         (seq 0 n_right).

(** [np.convolve(a, v)] (mode 'full'): the longer argument comes first, an
    empty argument raises [ValueError], and the result is the correlation
    with the reversed second argument. *)
Definition np_convolve (a v : list R) : result (list R) :=
  let '(a, v) := if (List.length a <? List.length v)%nat then (v, a) else (a, v) in
  match a, v with
  | [], _ => Raise ValueError
  | _, [] => Raise ValueError
  | _, _ => Ok (np_correlate_full a (rev v))
  end.

Definition plot_shifted_impulse_responses (n_x : list Z) (x : list R)
    (start_x : Z) (h : list R) (n_h0 : list Z) (global_xlim : Z * Z)
    (ymax : R) (global_ticks : list Z) : Render unit :=
  for_each n_x (fun i =>
    coeff <- lift (getitem x (i - start_x)) ;;
    let n_hi := shift n_h0 i in
    let fig := plot_signal_with_grid n_hi (scale coeff h)
                 global_xlim ymax global_ticks "C1"%string in
    st_pyplot fig).

Definition plot_convolution_result (x h : list R) (start_x start_h : Z)
    (global_xlim : Z * Z) (ymax : R) (global_ticks : list Z) : Render unit :=
  y <- lift (np_convolve x h) ;;
  let start_y := start_x + start_h in
  let n_y := arange start_y (start_y + len y) in
  let fig := plot_signal n_y y "y(n) = x(n) * h(n)"%string
               global_xlim ymax global_ticks "C3"%string in
  st_pyplot fig.

(** ** [app.py]

    The script runs top to bottom; its module-level names are functions of
    the two parsed sequences and their start indices. *)

Section Page.

Variable YMAX : R.
Variables (x : list R) (start_x : Z).
Variables (h : list R) (start_h : Z).

Definition n_x : list Z := arange start_x (start_x + len x).
Definition xlim_x : Z * Z := (start_x - 2, start_x + len x + 2).

(** The loop under "Signal Decomposition". *)
Definition decomposition : Render unit :=
  for_each n_x (fun i =>
    signal_value <- lift (getitem x (i - start_x)) ;;
    let fig := plot_signal_with_grid [i] [signal_value]
                 xlim_x YMAX n_x "C0"%string in
    st_pyplot fig).

Definition left_column : Render unit :=
  st_pyplot (plot_signal n_x x "x(n)"%string xlim_x YMAX n_x "C0"%string) ;;;
  decomposition.

Definition n_h0 : list Z := arange start_h (start_h + len h).
Definition xlim_h : Z * Z := (start_h - 2, start_h + len h + 2).

Definition start_y : Z := start_x + start_h.
Definition end_y : Z := start_y + (len x + len h - 2).

Definition global_min : Z := Z.min (Z.min start_x start_h) start_y.
Definition global_max : Z :=
  Z.max (Z.max (start_x + len x - 1) (start_h + len h - 1)) end_y.
Definition global_ticks : list Z := arange global_min (global_max + 1).
Definition global_xlim : Z * Z := (global_min - 2, global_max + 2).

Definition convolution_steps : Render unit :=
  plot_shifted_impulse_responses n_x x start_x h n_h0
    global_xlim YMAX global_ticks.

Definition convolution_result : Render unit :=
  plot_convolution_result x h start_x start_h global_xlim YMAX global_ticks.

Definition right_column : Render unit :=
  st_pyplot (plot_signal n_h0 h "h(n)"%string xlim_h YMAX n_h0 "C1"%string) ;;;
  convolution_steps ;;;
  convolution_result.

Definition page : Render unit := left_column ;;; right_column.

End Page.

(** ** Notions of the specification *)

(** [sigma n f] is the sum of [f 0], ..., [f (n-1)]. *)
Fixpoint sigma (n : nat) (f : nat -> R) : R :=
  match n with
  | O => rO
  | S n' => radd (sigma n' f) (f n')
  end.

(** The convolution sum as the specification writes it:
    [y[n] = sum over k of x[k] * h[n-k]], over the [k] for which both
    [x[k]] and [h[n-k]] exist. *)
Definition conv_spec (x h : list R) (n : nat) : R :=
  sigma (List.length x) (fun k =>
    if ((k <=? n) && (n - k <? List.length h))%nat
    then rmul (nth k x rO) (nth (n - k) h rO)
    else rO).






(** The stem data of a figure: its time indices and its samples. *)
Definition stems (fig : Figure) : list Z * list R :=
  (n_values fig, signal_values fig).


(** The convolution sum over all pairs of positions that add up to [m]. *)
Definition conv_pairs (a v : list R) (m : nat) : R :=
  sigma (S m) (fun t => rmul (nth t a rO) (nth (m - t) v rO)).

(** The operands of [np.convolve(x, h)] in the order NumPy works on them:
    the longer one first, x first when the lengths are equal. *)
Definition operands (x h : list R) : list R * list R :=
  if (List.length x <? List.length h)%nat then (h, x) else (x, h).

(** The convolution sum as it is accumulated.  For the output position
    [m] the products [a[j] * v[m - j]] are taken over the positions [j]
    where both factors exist, from [lo] up to [hi - 1], and added to 0 one
    after the other in this order. *)
Definition conv_acc (a v : list R) (m : nat) : R :=
  let lo := (m - (List.length v - 1))%nat in
  let hi := Nat.min (S m) (List.length a) in
  sigma (hi - lo) (fun j => rmul (nth (lo + j) a rO) (nth (m - (lo + j)) v rO)).




(** ** Format strings of the stem plots

    [plot_signal] and [plot_signal_with_grid] derive the line and marker
    formats of [ax.stem] from the colour tag. *)

Definition linefmt (color : string) : string :=
  if negb (String.eqb color "C0") then (color ++ "-")%string
  else "C0-"%string.

Definition markerfmt (color : string) : string :=
  if negb (String.eqb color "C0") then (color ++ "o")%string
  else "C0o"%string.

(** ** The page with its captions

    The same functions with everything they put on the page, in order:
    the Markdown lines, the LaTeX captions and the figures. *)

Inductive Element : Type :=
| Markdown (text : string)
| Latex (text : string)
| Pyplot (fig : Figure).

Definition Display (A : Type) : Type := (list Element * result A)%type.

Definition bind_display {A B : Type} (m : Display A) (f : A -> Display B)
  : Display B :=
  match m with
  | (shown, Ok a) => let (shown', r) := f a in (shown ++ shown', r)
  | (shown, Raise e) => (shown, Raise e)
  end.

Notation "x <~ m ;; k" := (bind_display m (fun x => k))
  (at level 61, m at next level, right associativity).
Notation "m ~;; k" := (bind_display m (fun _ => k))
  (at level 61, right associativity).

Definition st_markdown (text : string) : Display unit :=
  ([Markdown text], Ok tt).
Definition st_latex (text : string) : Display unit := ([Latex text], Ok tt).
Definition st_pyplot_display (fig : Figure) : Display unit :=
  ([Pyplot fig], Ok tt).
Definition lift_display {A : Type} (r : result A) : Display A := ([], r).

Fixpoint for_each_display {A : Type} (xs : list A)
    (body : A -> Display unit) : Display unit :=
  match xs with
  | [] => ([], Ok tt)
  | i :: rest => body i ~;; for_each_display rest body
  end.

(** The figures among the elements of a page. *)
Fixpoint figures_of (shown : list Element) : list Figure :=
  match shown with
  | [] => []
  | Pyplot fig :: rest => fig :: figures_of rest
  | _ :: rest => figures_of rest
  end.

(** [f"{i}"] for an integer: its decimal digits, with a minus sign when
    negative. *)
Definition str (i : Z) : string := NilEmpty.string_of_int (Z.to_int i).

(** The caption of a component in the decomposition loop. *)
Definition delta_caption (i : Z) : string :=
  if 0 <=? i
  then ("x(" ++ str i ++ ")\,\delta(n - " ++ str i ++ ")")%string
  else ("x(" ++ str i ++ ")\,\delta(n + " ++ str (-1 * i) ++ ")")%string.

(** The caption of a shifted response. *)
Definition response_caption (i : Z) : string :=
  if 0 <=? i
  then ("x(" ++ str i ++ ")\,h(n - " ++ str i ++ ")")%string
  else ("x(" ++ str i ++ ")\,h(n + " ++ str (-1 * i) ++ ")")%string.

Definition plot_shifted_impulse_responses_display (n_x : list Z)
    (x : list R) (start_x : Z) (h : list R) (n_h0 : list Z)
    (global_xlim : Z * Z) (ymax : R) (global_ticks : list Z)
  : Display unit :=
  st_markdown "### Convolution Steps" ~;;
  st_markdown
    "Each component of x(n) produces a shifted and scaled version of h(n):"
  ~;;
  for_each_display n_x (fun i =>
    coeff <~ lift_display (getitem x (i - start_x)) ;;
    st_latex (response_caption i) ~;;
    let n_hi := shift n_h0 i in
    let fig := plot_signal_with_grid n_hi (scale coeff h)
                 global_xlim ymax global_ticks "C1"%string in
    st_pyplot_display fig).

Definition plot_convolution_result_display (x h : list R)
    (start_x start_h : Z) (global_xlim : Z * Z) (ymax : R)
    (global_ticks : list Z) : Display unit :=
  st_markdown "### Convolution Result" ~;;
  st_markdown "The output y(n) is the sum of all shifted impulse responses:"
  ~;;
  y <~ lift_display (np_convolve x h) ;;
  let start_y := start_x + start_h in
  let n_y := arange start_y (start_y + len y) in
  let fig := plot_signal n_y y "y(n) = x(n) * h(n)"%string
               global_xlim ymax global_ticks "C3"%string in
  st_pyplot_display fig.

(** The part of [app.py] under "Signal Decomposition". *)
Definition decomposition_display (YMAX : R) (x : list R) (start_x : Z)
  : Display unit :=
  st_markdown "### Signal Decomposition" ~;;
  st_markdown "Breaking down x(n) into scaled and shifted unit impulses:"
  ~;;
  for_each_display (n_x x start_x) (fun i =>
    st_latex (delta_caption i) ~;;
    signal_value <~ lift_display (getitem x (i - start_x)) ;;
    let fig := plot_signal_with_grid [i] [signal_value]
                 (xlim_x x start_x) YMAX (n_x x start_x) "C0"%string in
    st_pyplot_display fig).

(** ** Notions used to state how the page behaves *)

(** A stem plot moved by [d] along the time axis. *)
Definition delay (d : Z) (s : list Z * list R) : list Z * list R :=
  (shift (fst s) d, snd s).

(** Whether a character occurs in a text. *)
Fixpoint has_char (c : ascii) (s : string) : bool :=
  match s with
  | EmptyString => false
  | String c' s' => Ascii.eqb c c' || has_char c s'
  end.

(** A position that array indexing accepts for [x]. *)
Definition indexable (x : list R) (j : Z) : Prop := - len x <= j < len x.

(** ** Ranges, loops and indexing *)

Lemma arange_from_length (a : Z) (n : nat) :
  arange a (a + Z.of_nat n) = map (fun k => a + Z.of_nat k) (seq 0 n).
Proof.
  unfold arange. replace (a + Z.of_nat n - a) with (Z.of_nat n) by lia.
  now rewrite Nat2Z.id.
Qed.

Lemma arange_length (a b : Z) : List.length (arange a b) = Z.to_nat (b - a).
Proof. unfold arange. now rewrite length_map, length_seq. Qed.

Lemma in_arange (a b t : Z) : In t (arange a b) <-> a <= t < b.
Proof.
  unfold arange. rewrite in_map_iff. split.
  - intros [k [<- Hk]]. apply in_seq in Hk. lia.
  - intros Ht. exists (Z.to_nat (t - a)). split; [lia|].
    apply in_seq. lia.
Qed.

Lemma shift_arange (a b i : Z) : shift (arange a b) i = arange (a + i) (b + i).
Proof.
  unfold shift, arange. rewrite map_map.
  replace (b + i - (a + i)) with (b - a) by lia.
  apply map_ext. intros k. lia.
Qed.

Lemma n_x_seq (x : list R) (start_x : Z) :
  n_x x start_x = map (fun k => start_x + Z.of_nat k) (seq 0 (List.length x)).
Proof. apply arange_from_length. Qed.

Lemma getitem_in_range (x : list R) (j : Z) :
  0 <= j < len x -> getitem x j = Ok (nth (Z.to_nat j) x rO).
Proof.
  intros Hj. unfold getitem.
  destruct (0 <=? j) eqn:E1; [|lia].
  destruct (j <? len x) eqn:E2; [reflexivity|lia].
Qed.

Lemma getitem_offset (x : list R) (start_x : Z) (k : nat) :
  (k < List.length x)%nat ->
  getitem x (start_x + Z.of_nat k - start_x) = Ok (nth k x rO).
Proof.
  intros Hk. rewrite getitem_in_range by (unfold len; lia).
  do 2 f_equal. lia.
Qed.

(** A loop whose body shows one figure per item and never raises shows the
    figures in the order of the items. *)
Lemma for_each_shows {A : Type} (xs : list A) (body : A -> Render unit)
    (g : A -> Figure) :
  (forall i, In i xs -> body i = ([g i], Ok tt)) ->
  for_each xs body = (map g xs, Ok tt).
Proof.
  induction xs as [|i rest IH]; intros Hbody; [reflexivity|].
  cbn [for_each]. rewrite (Hbody i) by now left.
  cbn [bind]. rewrite IH by (intros j Hj; apply Hbody; now right).
  reflexivity.
Qed.

(** The figures of the decomposition loop. *)
Lemma decomposition_figures (YMAX : R) (x : list R) (start_x : Z) :
  decomposition YMAX x start_x =
  (map (fun k => plot_signal_with_grid [start_x + Z.of_nat k] [nth k x rO]
                   (xlim_x x start_x) YMAX (n_x x start_x) "C0"%string)
       (seq 0 (List.length x)),
   Ok tt).
Proof.
  unfold decomposition. rewrite n_x_seq at 1.
  rewrite (for_each_shows _ _
    (fun i => plot_signal_with_grid [i] [nth (Z.to_nat (i - start_x)) x rO]
                (xlim_x x start_x) YMAX (n_x x start_x) "C0"%string)).
  - rewrite map_map. f_equal. apply map_ext. intros k.
    replace (start_x + Z.of_nat k - start_x) with (Z.of_nat k) by lia.
    now rewrite Nat2Z.id.
  - intros i Hi. apply in_map_iff in Hi as [k [<- Hk]]. apply in_seq in Hk.
    rewrite getitem_offset by lia. cbn.
    replace (start_x + Z.of_nat k - start_x) with (Z.of_nat k) by lia.
    now rewrite Nat2Z.id.
Qed.

(** The figures of the convolution-step loop. *)
Lemma steps_figures (x : list R) (start_x : Z) (h : list R) (start_h : Z)
    (gxlim : Z * Z) (ymax : R) (gticks : list Z) :
  plot_shifted_impulse_responses (n_x x start_x) x start_x h
    (n_h0 h start_h) gxlim ymax gticks =
  (map (fun k => plot_signal_with_grid
                   (shift (n_h0 h start_h) (start_x + Z.of_nat k))
                   (scale (nth k x rO) h) gxlim ymax gticks "C1"%string)
       (seq 0 (List.length x)),
   Ok tt).
Proof.
  unfold plot_shifted_impulse_responses. rewrite n_x_seq.
  rewrite (for_each_shows _ _
    (fun i => plot_signal_with_grid (shift (n_h0 h start_h) i)
                (scale (nth (Z.to_nat (i - start_x)) x rO) h)
                gxlim ymax gticks "C1"%string)).
  - rewrite map_map. f_equal. apply map_ext. intros k.
    replace (start_x + Z.of_nat k - start_x) with (Z.of_nat k) by lia.
    now rewrite Nat2Z.id.
  - intros i Hi. apply in_map_iff in Hi as [k [<- Hk]]. apply in_seq in Hk.
    rewrite getitem_offset by lia. cbn.
    replace (start_x + Z.of_nat k - start_x) with (Z.of_nat k) by lia.
    now rewrite Nat2Z.id.
Qed.

Lemma seq_range_sorted (a : Z) (n s : nat) :
  StronglySorted Z.lt (map (fun k => a + Z.of_nat k) (seq s n)).
Proof.
  revert s. induction n as [|n IH]; intros s; cbn; constructor.
  - apply IH.
  - apply Forall_forall. intros t Ht.
    apply in_map_iff in Ht as [k [<- Hk]]. apply in_seq in Hk. lia.
Qed.

Lemma arange_sorted (a b : Z) : StronglySorted Z.lt (arange a b).
Proof. apply seq_range_sorted. Qed.

Lemma concat_singletons {A B : Type} (f : A -> B) (l : list A) :
  List.concat (map (fun k => [f k]) l) = map f l.
Proof. induction l as [|k l IH]; cbn; [reflexivity | now rewrite IH]. Qed.

(** ** The impulse decomposition *)

(** C6. For a non-empty [x], the decomposition loop shows exactly [len(x)]
    single-stem figures and does not raise; the [k]-th one is the component
    with time index [start_x + k] and value [x[k]], and the time indices of
    the components increase strictly along the loop. *)
Theorem decompose_components (YMAX : R) (x : list R) (start_x : Z) :
  x <> [] ->
  exists figs,
    decomposition YMAX x start_x = (figs, Ok tt) /\
    List.length figs = List.length x /\
    map stems figs =
      map (fun k => ([start_x + Z.of_nat k], [nth k x rO]))
          (seq 0 (List.length x)) /\
    StronglySorted Z.lt (List.concat (map n_values figs)).
Proof.
  intros _. eexists. split; [apply decomposition_figures|].
  split; [now rewrite length_map, length_seq|].
  split.
  - rewrite map_map. reflexivity.
  - rewrite map_map. cbn [n_values plot_signal_with_grid].
    rewrite concat_singletons. apply seq_range_sorted.
Qed.

(** C9. For a non-empty [x], every [i] of the time-index range [n_x] gives
    a position [i - start_x] inside [x], so the lookup [x[i - start_x]]
    returns the sample at that position, and neither the decomposition loop
    nor the loop of the shifted responses raises. *)
Theorem coefficient_lookup_in_bounds (YMAX : R) (x : list R) (start_x : Z)
    (h : list R) (start_h : Z) (gxlim : Z * Z) (gticks : list Z) :
  x <> [] ->
  (forall i, In i (n_x x start_x) ->
     0 <= i - start_x < len x /\
     getitem x (i - start_x) = Ok (nth (Z.to_nat (i - start_x)) x rO)) /\
  snd (decomposition YMAX x start_x) = Ok tt /\
  snd (plot_shifted_impulse_responses (n_x x start_x) x start_x h
         (n_h0 h start_h) gxlim YMAX gticks) = Ok tt.
Proof.
  intros _. split; [|split].
  - intros i Hi. apply in_arange in Hi.
    assert (Hb : 0 <= i - start_x < len x) by lia.
    split; [exact Hb | now apply getitem_in_range].
  - now rewrite decomposition_figures.
  - now rewrite steps_figures.
Qed.

(** ** Axis planning *)

Lemma left_column_figures (YMAX : R) (x : list R) (start_x : Z) :
  left_column YMAX x start_x =
  (plot_signal (n_x x start_x) x "x(n)"%string (xlim_x x start_x) YMAX
     (n_x x start_x) "C0"%string
   :: fst (decomposition YMAX x start_x),
   Ok tt).
Proof.
  unfold left_column. rewrite decomposition_figures. reflexivity.
Qed.

Lemma arange_hd (a b : Z) : a < b -> hd_error (arange a b) = Some a.
Proof.
  intros Hab. unfold arange.
  destruct (Z.to_nat (b - a)) eqn:E; [lia|]. cbn. f_equal. lia.
Qed.

Lemma arange_last (a b d : Z) : a < b -> last (arange a b) d = b - 1.
Proof.
  intros Hab. unfold arange.
  replace (Z.to_nat (b - a)) with (S (Z.to_nat (b - a - 1))) by lia.
  rewrite seq_S, map_app. cbn [map]. rewrite last_last. lia.
Qed.

(** C8, as the program has it.  For a non-empty signal with start index
    [start], the single-signal axis of the script (the one of x, and
    likewise the one of h) has as ticks the contiguous integers from
    [start] to [start + len - 1], in increasing order, and as limits
    [(start - 2, start + len + 2)].  The lower limit lies 2 below the first
    tick and the upper limit 3 above the last one: the margins are fixed
    but not equal.  The plot of the signal is drawn with these ticks and
    limits. *)
Theorem single_axis_plan (YMAX : R) (x : list R) (start : Z) :
  x <> [] ->
  (forall t, In t (n_x x start) <-> start <= t <= start + len x - 1) /\
  StronglySorted Z.lt (n_x x start) /\
  List.length (n_x x start) = List.length x /\
  xlim_x x start = (start - 2, start + len x + 2) /\
  hd_error (n_x x start) = Some start /\
  last (n_x x start) start = start + len x - 1 /\
  start - fst (xlim_x x start) = 2 /\
  snd (xlim_x x start) - last (n_x x start) start = 3 /\
  n_h0 x start = n_x x start /\
  xlim_h x start = xlim_x x start /\
  (exists figs, fst (left_column YMAX x start) = figs /\
     option_map xticks (hd_error figs) = Some (n_x x start) /\
     option_map n_values (hd_error figs) = Some (n_x x start) /\
     option_map xlim (hd_error figs) = Some (xlim_x x start)).
Proof.
  intros Hx.
  assert (Lx : 0 < len x) by (unfold len; destruct x; [easy | cbn; lia]).
  assert (Hlast : last (n_x x start) start = start + len x - 1).
  { unfold n_x. rewrite arange_last by lia. lia. }
  split; [intros t; unfold n_x; rewrite in_arange; lia|].
  split; [apply arange_sorted|].
  split; [rewrite n_x_seq; now rewrite length_map, length_seq|].
  split; [reflexivity|].
  split; [apply arange_hd; lia|].
  split; [exact Hlast|].
  split; [cbn [xlim_x fst]; lia|].
  split; [rewrite Hlast; cbn [xlim_x snd]; lia|].
  split; [reflexivity|]. split; [reflexivity|].
  eexists. split; [reflexivity|]. rewrite left_column_figures. cbn.
  repeat split.
Qed.

(** C5. For non-empty x and h the global axis is exactly the least of the
    three starts and the greatest of the three ends:
    [global_min = min(start_x, start_h, start_y)] and
    [global_max = max(end_x, end_h, end_y)] as equalities, where
    [start_y = start_x + start_h] and [end_y = start_y + len x + len h - 2].
    The ticks are the contiguous integers from [global_min] to
    [global_max], the limits are [(global_min - 2, global_max + 2)], and
    every index of the span of x, of h and of the convolution lies between
    [global_min] and [global_max]. *)
Theorem global_axis_plan (x : list R) (start_x : Z) (h : list R)
    (start_h : Z) :
  x <> [] -> h <> [] ->
  let end_x := start_x + len x - 1 in
  let end_h := start_h + len h - 1 in
  let gmin := global_min start_x start_h in
  let gmax := global_max x start_x h start_h in
  start_y start_x start_h = start_x + start_h /\
  end_y x start_x h start_h = start_x + start_h + len x + len h - 2 /\
  gmin = Z.min start_x (Z.min start_h (start_y start_x start_h)) /\
  gmax = Z.max end_x (Z.max end_h (end_y x start_x h start_h)) /\
  (forall t, In t (global_ticks x start_x h start_h) <-> gmin <= t <= gmax) /\
  StronglySorted Z.lt (global_ticks x start_x h start_h) /\
  global_xlim x start_x h start_h = (gmin - 2, gmax + 2) /\
  (forall t, start_x <= t <= end_x -> gmin <= t <= gmax) /\
  (forall t, start_h <= t <= end_h -> gmin <= t <= gmax) /\
  (forall t, start_y start_x start_h <= t <= end_y x start_x h start_h ->
             gmin <= t <= gmax).
Proof.
  intros Hx Hh. cbv zeta.
  unfold global_ticks, global_xlim, global_min, global_max, end_y, start_y.
  assert (0 < len x) by (unfold len; destruct x; [easy | cbn; lia]).
  assert (0 < len h) by (unfold len; destruct h; [easy | cbn; lia]).
  split; [reflexivity|]. split; [lia|]. split; [lia|]. split; [lia|].
  split; [intros t; rewrite in_arange; lia|].
  split; [apply arange_sorted|].
  split; [reflexivity|].
  split; [|split]; intros t Ht; lia.
Qed.

(** ** The shifted and scaled responses *)

Lemma convolution_steps_figures (YMAX : R) (x : list R) (start_x : Z)
    (h : list R) (start_h : Z) :
  convolution_steps YMAX x start_x h start_h =
  (map (fun k => plot_signal_with_grid
                   (arange (start_h + (start_x + Z.of_nat k))
                           (start_h + (start_x + Z.of_nat k) + len h))
                   (scale (nth k x rO) h)
                   (global_xlim x start_x h start_h) YMAX
                   (global_ticks x start_x h start_h) "C1"%string)
       (seq 0 (List.length x)),
   Ok tt).
Proof.
  unfold convolution_steps. rewrite steps_figures. f_equal.
  apply map_ext. intros k. unfold n_h0. rewrite shift_arange.
  do 2 f_equal. lia.
Qed.

(** C10. For non-empty x and h, every figure of the convolution-step loop
    is drawn on the global ticks and limits, and each of its time indices
    [n_h0 + i] lies in the span of the convolution output, from
    [start_x + start_h] to [start_x + start_h + len x + len h - 2], hence
    between [global_min] and [global_max], and is one of the global ticks. *)
Theorem steps_within_output_span (YMAX : R) (x : list R) (start_x : Z)
    (h : list R) (start_h : Z) :
  x <> [] -> h <> [] ->
  forall fig, In fig (fst (convolution_steps YMAX x start_x h start_h)) ->
    xticks fig = global_ticks x start_x h start_h /\
    xlim fig = global_xlim x start_x h start_h /\
    forall t, In t (n_values fig) ->
      start_x + start_h <= t <= start_x + start_h + len x + len h - 2 /\
      global_min start_x start_h <= t <= global_max x start_x h start_h /\
      In t (global_ticks x start_x h start_h).
Proof.
  intros _ _ fig Hfig. rewrite convolution_steps_figures in Hfig.
  cbn [fst] in Hfig. apply in_map_iff in Hfig as [k [<- Hk]].
  apply in_seq in Hk. cbn [xticks xlim n_values plot_signal_with_grid].
  split; [reflexivity|]. split; [reflexivity|].
  intros t Ht. apply in_arange in Ht.
  assert (Hspan : start_x + start_h <= t
                  <= start_x + start_h + len x + len h - 2)
    by (unfold len in *; lia).
  assert (Hglob : global_min start_x start_h <= t
                  <= global_max x start_x h start_h)
    by (unfold global_min, global_max, end_y, start_y; lia).
  split; [exact Hspan|]. split; [exact Hglob|].
  unfold global_ticks. apply in_arange. lia.
Qed.


(** ** Finite sums *)

Lemma sigma_ext (n : nat) (f g : nat -> R) :
  (forall k, (k < n)%nat -> f k = g k) -> sigma n f = sigma n g.
Proof.
  induction n as [|n IH]; intros H; cbn; [reflexivity|].
  rewrite IH by (intros k Hk; apply H; lia). now rewrite H by lia.
Qed.

Lemma sigma_zero (n : nat) (f : nat -> R) :
  (forall k, (k < n)%nat -> f k = rO) -> sigma n f = rO.
Proof.
  induction n as [|n IH]; intros H; cbn; [reflexivity|].
  rewrite IH by (intros k Hk; apply H; lia). rewrite H by lia. ring.
Qed.

Lemma sigma_split (n m : nat) (f : nat -> R) :
  sigma (n + m) f = radd (sigma n f) (sigma m (fun k => f (n + k)%nat)).
Proof.
  induction m as [|m IH]; cbn.
  - rewrite Nat.add_0_r. ring.
  - rewrite Nat.add_succ_r. cbn. rewrite IH. ring.
Qed.

Lemma sigma_head (n : nat) (f : nat -> R) :
  sigma (S n) f = radd (f O) (sigma n (fun k => f (S k))).
Proof.
  change (S n) with (1 + n)%nat. rewrite sigma_split. cbn. ring.
Qed.

Lemma sigma_rev (n : nat) (f : nat -> R) :
  sigma n f = sigma n (fun k => f (n - 1 - k)%nat).
Proof.
  revert f. induction n as [|n IH]; intros f; [reflexivity|].
  rewrite (sigma_head n (fun k => f (S n - 1 - k)%nat)).
  cbn [sigma]. rewrite (IH f).
  replace (S n - 1 - 0)%nat with n by lia.
  rewrite (sigma_ext n (fun k => f (S n - 1 - S k)%nat)
                       (fun k => f (n - 1 - k)%nat))
    by (intros k Hk; f_equal; lia).
  ring.
Qed.

(** A sum whose terms vanish outside a window is the sum over the window. *)
Lemma sigma_window (p q r : nat) (f : nat -> R) :
  (forall t, (t < p)%nat -> f t = rO) ->
  (forall t, (p + q <= t < p + q + r)%nat -> f t = rO) ->
  sigma (p + q + r) f = sigma q (fun j => f (p + j)%nat).
Proof.
  intros Hp Hr. rewrite !sigma_split.
  rewrite (sigma_zero p) by exact Hp.
  rewrite (sigma_zero r) by (intros k Hk; apply Hr; lia).
  ring.
Qed.

Lemma sigma_extend (n n' : nat) (f : nat -> R) :
  (n <= n')%nat -> (forall k, (n <= k < n')%nat -> f k = rO) ->
  sigma n' f = sigma n f.
Proof.
  intros Hle Hz. replace n' with (0 + n + (n' - n))%nat by lia.
  rewrite sigma_window.
  - reflexivity.
  - intros t Ht. lia.
  - intros t Ht. apply Hz. lia.
Qed.


(** ** NumPy's convolution computes the convolution sum *)

Lemma dot_from_step (tmp : R) (a b : list R) (n : nat) :
  (n < List.length a)%nat -> (n < List.length b)%nat ->
  dot_from tmp a b (S n) =
  radd (dot_from tmp a b n) (rmul (nth n a rO) (nth n b rO)).
Proof.
  revert tmp a b. induction n as [|n IH]; intros tmp a b Ha Hb;
    destruct a as [|ai a]; destruct b as [|bi b]; cbn in Ha, Hb; try lia.
  - reflexivity.
  - change (dot_from tmp (ai :: a) (bi :: b) (S (S n)))
      with (dot_from (radd tmp (rmul ai bi)) a b (S n)).
    rewrite IH by lia. reflexivity.
Qed.

(** The dot product is the sum of the products in the order of the
    buffers; no law of the arithmetic is used. *)
Lemma dot_sigma (a b : list R) (n : nat) :
  (n <= List.length a)%nat -> (n <= List.length b)%nat ->
  dot a b n = sigma n (fun j => rmul (nth j a rO) (nth j b rO)).
Proof.
  unfold dot. induction n as [|n IH]; intros Ha Hb.
  - now destruct a, b.
  - rewrite dot_from_step by lia. cbn [sigma]. now rewrite IH by lia.
Qed.

Lemma dot_window (a w : list R) (p s q : nat) :
  (p + q <= List.length a)%nat -> (s + q <= List.length w)%nat ->
  dot (skipn p a) (skipn s w) q =
  sigma q (fun j => rmul (nth (p + j) a rO) (nth (s + j) w rO)).
Proof.
  intros Ha Hw. rewrite dot_sigma by (rewrite length_skipn; lia).
  apply sigma_ext. intros j _. now rewrite !nth_skipn.
Qed.

Lemma map_seq_offset {B : Type} (f : nat -> B) (s n : nat) :
  map f (seq s n) = map (fun i => f (s + i)%nat) (seq 0 n).
Proof.
  revert f s. induction n as [|n IH]; intros f s; [reflexivity|].
  cbn [seq map]. rewrite Nat.add_0_r. f_equal.
  rewrite (IH f (S s)), (IH (fun i => f (s + i)%nat) 1%nat).
  apply map_ext. intros i. f_equal. lia.
Qed.

(** The three phases of the correlation with the reversed second operand
    give, position by position, the accumulated convolution sum. *)
Lemma correlate_acc (a v : list R) :
  (1 <= List.length v <= List.length a)%nat ->
  np_correlate_full a (rev v) =
  map (conv_acc a v) (seq 0 (List.length a + List.length v - 1)).
Proof.
  intros Hlen. unfold np_correlate_full. rewrite length_rev.
  assert (Hrev : List.length (rev v) = List.length v) by apply length_rev.
  unfold conv_acc.
  set (n1 := List.length a) in *. set (n2 := List.length v) in *.
  set (mid := (n1 - n2 + 1)%nat).
  replace (n1 + n2 - 1)%nat with ((n2 - 1) + (mid + (n2 - 1)))%nat
    by (unfold mid; lia).
  rewrite (seq_app (n2 - 1)), (seq_app mid), !map_app. cbn [Nat.add].
  unfold mid. clear mid.
  f_equal; [|f_equal].
  - apply map_ext_in. intros i Hi. apply in_seq in Hi.
    rewrite <- (skipn_O a) at 1.
    rewrite dot_window by (fold n1; rewrite ?Hrev; lia).
    replace (i - (n2 - 1))%nat with 0%nat by lia.
    replace (Nat.min (S i) n1 - 0)%nat with (S i) by lia.
    apply sigma_ext. intros j Hj. f_equal.
    rewrite rev_nth by (fold n2; lia). fold n2. f_equal. lia.
  - rewrite (map_seq_offset (fun m => sigma _ _)).
    apply map_ext_in. intros i Hi. apply in_seq in Hi.
    rewrite <- (skipn_O (rev v)).
    rewrite dot_window by (fold n1; rewrite ?Hrev; lia).
    replace (n2 - 1 + i - (n2 - 1))%nat with i by lia.
    replace (Nat.min (S (n2 - 1 + i)) n1 - i)%nat with n2 by lia.
    apply sigma_ext. intros j Hj. f_equal.
    rewrite rev_nth by (fold n2; lia). fold n2. f_equal. lia.
  - rewrite (map_seq_offset (fun m => sigma _ _)).
    apply map_ext_in. intros i Hi. apply in_seq in Hi.
    rewrite <- (skipn_O (rev v)).
    rewrite dot_window by (fold n1; rewrite ?Hrev; lia).
    replace (n2 - 1 + (n1 - n2 + 1) + i - (n2 - 1))%nat
      with (n1 - n2 + 1 + i)%nat by lia.
    replace (Nat.min (S (n2 - 1 + (n1 - n2 + 1) + i)) n1
             - (n1 - n2 + 1 + i))%nat with (n2 - 1 - i)%nat by lia.
    apply sigma_ext. intros j Hj. f_equal.
    rewrite rev_nth by (fold n2; lia). fold n2. f_equal. lia.
Qed.

(** [np.convolve] on non-empty arguments: the accumulated convolution sums
    of its operands, longer one first. *)
Lemma np_convolve_acc (x h : list R) :
  x <> [] -> h <> [] ->
  np_convolve x h =
  Ok (map (conv_acc (fst (operands x h)) (snd (operands x h)))
          (seq 0 (List.length x + List.length h - 1))).
Proof.
  intros Hx Hh. unfold np_convolve, operands.
  destruct x as [|x0 x']; [easy|]. destruct h as [|h0 h']; [easy|].
  set (x := x0 :: x'). set (h := h0 :: h').
  assert (Lx : (1 <= List.length x)%nat) by (cbn; lia).
  assert (Lh : (1 <= List.length h)%nat) by (cbn; lia).
  destruct (List.length x <? List.length h)%nat eqn:E; cbn [fst snd].
  - apply Nat.ltb_lt in E.
    change (Ok (np_correlate_full h (rev x)) =
            Ok (map (conv_acc h x)
                    (seq 0 (List.length x + List.length h - 1)))).
    rewrite correlate_acc by lia.
    now rewrite (Nat.add_comm (List.length h)).
  - apply Nat.ltb_ge in E.
    change (Ok (np_correlate_full x (rev h)) =
            Ok (map (conv_acc x h)
                    (seq 0 (List.length x + List.length h - 1)))).
    now rewrite correlate_acc by lia.
Qed.

Lemma np_convolve_ok (x h : list R) :
  x <> [] -> h <> [] ->
  exists y, np_convolve x h = Ok y /\
            List.length y = (List.length x + List.length h - 1)%nat.
Proof.
  intros Hx Hh. eexists. split; [now apply np_convolve_acc|].
  now rewrite length_map, length_seq.
Qed.

(** *** In exact arithmetic *)

Lemma conv_pairs_window (a v : list R) (m p q : nat) :
  (p + q <= S m)%nat ->
  (forall t, (t < p)%nat -> (List.length v <= m - t)%nat) ->
  (forall t, (p + q <= t <= m)%nat -> (List.length a <= t)%nat) ->
  conv_pairs a v m =
  sigma q (fun j => rmul (nth (p + j) a rO) (nth (m - (p + j)) v rO)).
Proof.
  intros Hle Hlow Hhigh. unfold conv_pairs.
  replace (S m) with (p + q + (S m - (p + q)))%nat by lia.
  apply sigma_window.
  - intros t Ht. rewrite (nth_overflow v) by (apply Hlow; exact Ht). ring.
  - intros t Ht. rewrite (nth_overflow a) by (apply Hhigh; lia). ring.
Qed.

Lemma conv_pairs_comm (a v : list R) (m : nat) :
  conv_pairs a v m = conv_pairs v a m.
Proof.
  unfold conv_pairs. rewrite sigma_rev. apply sigma_ext. intros t Ht.
  replace (S m - 1 - t)%nat with (m - t)%nat by lia.
  replace (m - (m - t))%nat with t by lia. ring.
Qed.

Lemma conv_spec_pairs (x h : list R) (n : nat) :
  conv_spec x h n = conv_pairs x h n.
Proof.
  unfold conv_spec, conv_pairs.
  set (g := fun k => if ((k <=? n) && (n - k <? List.length h))%nat
                     then rmul (nth k x rO) (nth (n - k) h rO) else rO).
  rewrite (sigma_ext (S n) _ g).
  - rewrite <- (sigma_extend (List.length x)
                  (Nat.max (List.length x) (S n)) g); [|lia|].
    + apply sigma_extend; [lia|]. intros k Hk. unfold g.
      destruct (k <=? n)%nat eqn:E; [|reflexivity].
      apply Nat.leb_le in E. lia.
    + intros k Hk. unfold g.
      destruct ((k <=? n) && (n - k <? List.length h))%nat; [|reflexivity].
      rewrite (nth_overflow x) by lia. ring.
  - intros k Hk. unfold g.
    destruct (k <=? n)%nat eqn:E1; [|apply Nat.leb_gt in E1; lia].
    destruct (n - k <? List.length h)%nat eqn:E2; [reflexivity|].
    apply Nat.ltb_ge in E2. cbn. rewrite (nth_overflow h) by lia. ring.
Qed.

(** With the ring laws the accumulated sum is the sum over all pairs of
    positions that add up to [m]. *)
Lemma conv_acc_pairs (a v : list R) (m : nat) :
  (1 <= List.length v)%nat ->
  (m < List.length a + List.length v - 1)%nat ->
  conv_acc a v m = conv_pairs a v m.
Proof.
  intros Hv Hm. unfold conv_acc.
  rewrite (conv_pairs_window a v m (m - (List.length v - 1))
             (Nat.min (S m) (List.length a) - (m - (List.length v - 1))));
    [reflexivity | lia | intros t Ht; lia | intros t Ht; lia].
Qed.

Lemma correlate_conv (a v : list R) :
  (1 <= List.length v <= List.length a)%nat ->
  np_correlate_full a (rev v) =
  map (conv_pairs a v) (seq 0 (List.length a + List.length v - 1)).
Proof.
  intros Hlen. rewrite correlate_acc by exact Hlen.
  apply map_ext_in. intros m Hm. apply in_seq in Hm.
  apply conv_acc_pairs; lia.
Qed.

Lemma conv_spec_comm (x h : list R) (n : nat) :
  conv_spec x h n = conv_spec h x n.
Proof. rewrite !conv_spec_pairs. apply conv_pairs_comm. Qed.

Lemma np_convolve_spec (x h : list R) :
  x <> [] -> h <> [] ->
  np_convolve x h =
  Ok (map (conv_spec x h) (seq 0 (List.length x + List.length h - 1))).
Proof.
  intros Hx Hh. unfold np_convolve.
  destruct x as [|x0 x']; [easy|]. destruct h as [|h0 h']; [easy|].
  set (x := x0 :: x'). set (h := h0 :: h').
  assert (Lx : (1 <= List.length x)%nat) by (cbn; lia).
  assert (Lh : (1 <= List.length h)%nat) by (cbn; lia).
  destruct (List.length x <? List.length h)%nat eqn:E.
  - apply Nat.ltb_lt in E. change (Ok (np_correlate_full h (rev x)) =
      Ok (map (conv_spec x h) (seq 0 (List.length x + List.length h - 1)))).
    rewrite correlate_conv by lia.
    rewrite (Nat.add_comm (List.length h)). f_equal.
    apply map_ext. intros n. now rewrite conv_spec_pairs, conv_pairs_comm.
  - apply Nat.ltb_ge in E. change (Ok (np_correlate_full x (rev h)) =
      Ok (map (conv_spec x h) (seq 0 (List.length x + List.length h - 1)))).
    rewrite correlate_conv by lia. f_equal.
    apply map_ext. intros n. now rewrite conv_spec_pairs.
Qed.

Lemma convolution_result_figure (YMAX : R) (x : list R) (start_x : Z)
    (h : list R) (start_h : Z) :
  x <> [] -> h <> [] ->
  convolution_result YMAX x start_x h start_h =
  ([plot_signal
      (arange (start_x + start_h) (start_x + start_h + (len x + len h - 1)))
      (map (conv_spec x h) (seq 0 (List.length x + List.length h - 1)))
      "y(n) = x(n) * h(n)"%string (global_xlim x start_x h start_h) YMAX
      (global_ticks x start_x h start_h) "C3"%string],
   Ok tt).
Proof.
  intros Hx Hh. unfold convolution_result, plot_convolution_result.
  rewrite np_convolve_spec by assumption. cbn [lift bind st_pyplot List.app].
  replace (len (map (conv_spec x h)
                  (seq 0 (List.length x + List.length h - 1))))
    with (len x + len h - 1); [reflexivity|].
  unfold len. rewrite length_map, length_seq.
  destruct x; [easy|]. cbn [List.length]. lia.
Qed.

Lemma nth_map_seq {B : Type} (f : nat -> B) (n k : nat) (d : B) :
  (k < n)%nat -> nth k (map f (seq 0 n)) d = f k.
Proof.
  intros Hk. rewrite (nth_indep _ d (f O)) by now rewrite length_map, length_seq.
  rewrite map_nth. now rewrite seq_nth.
Qed.


(** ** The consistency law *)








(** ** Empty inputs *)

Lemma np_convolve_empty (h : list R) : np_convolve [] h = Raise ValueError.
Proof. destruct h; reflexivity. Qed.

(** ** The page as a whole *)

Lemma np_convolve_empty_r (x : list R) : np_convolve x [] = Raise ValueError.
Proof. destruct x; reflexivity. Qed.

Lemma np_convolve_ok_nonempty (x h y : list R) :
  np_convolve x h = Ok y -> x <> [] /\ h <> [].
Proof.
  intros H. split; intros ->.
  - now rewrite np_convolve_empty in H.
  - now rewrite np_convolve_empty_r in H.
Qed.

Lemma plot_convolution_result_value (x h : list R) (start_x start_h : Z)
    (gxlim : Z * Z) (ymax : R) (gticks : list Z) (y : list R) :
  np_convolve x h = Ok y ->
  plot_convolution_result x h start_x start_h gxlim ymax gticks =
  ([plot_signal (arange (start_x + start_h) (start_x + start_h + len y)) y
      "y(n) = x(n) * h(n)"%string gxlim ymax gticks "C3"%string],
   Ok tt).
Proof.
  intros Hy. unfold plot_convolution_result. now rewrite Hy.
Qed.

Lemma plot_convolution_result_raise (x h : list R) (start_x start_h : Z)
    (gxlim : Z * Z) (ymax : R) (gticks : list Z) (e : PyError) :
  np_convolve x h = Raise e ->
  plot_convolution_result x h start_x start_h gxlim ymax gticks =
  ([], Raise e).
Proof.
  intros Hy. unfold plot_convolution_result. now rewrite Hy.
Qed.

Lemma plot_convolution_result_cases (x h : list R) (start_x start_h : Z)
    (gxlim : Z * Z) (ymax : R) (gticks : list Z) :
  let out := plot_convolution_result x h start_x start_h gxlim ymax gticks in
  ((x = [] \/ h = []) /\ out = ([], Raise ValueError)) \/
  ((x <> [] /\ h <> []) /\
   exists fig, out = ([fig], Ok tt) /\
     List.length (signal_values fig) = (List.length x + List.length h - 1)%nat /\
     List.length (n_values fig) = List.length (signal_values fig)).
Proof.
  cbv zeta. destruct x as [|x0 x'].
  { left. split; [now left|].
    apply plot_convolution_result_raise, np_convolve_empty. }
  destruct h as [|h0 h'].
  { left. split; [now right|].
    apply plot_convolution_result_raise, np_convolve_empty_r. }
  right. split; [easy|]. eexists. split.
  - apply plot_convolution_result_value. now apply np_convolve_acc.
  - cbn [signal_values n_values plot_signal].
    rewrite arange_length, length_map, length_seq. split; [reflexivity|].
    unfold len. rewrite length_map, length_seq. cbn [List.length]. lia.
Qed.

(** X1. [plot_convolution_result] either raises [ValueError] without
    drawing, which happens exactly when x or h is empty, or draws one figure
    with [len x + len h - 1] samples on as many time indices. *)
Theorem convolution_result_raises_iff_empty (x h : list R)
    (start_x start_h : Z) (gxlim : Z * Z) (ymax : R) (gticks : list Z) :
  let out := plot_convolution_result x h start_x start_h gxlim ymax gticks in
  (x = [] \/ h = [] <-> out = ([], Raise ValueError)) /\
  (x <> [] /\ h <> [] <->
   exists fig, out = ([fig], Ok tt) /\
     List.length (signal_values fig) = (List.length x + List.length h - 1)%nat /\
     List.length (n_values fig) = List.length (signal_values fig)).
Proof.
  cbv zeta.
  destruct (plot_convolution_result_cases x h start_x start_h gxlim ymax
              gticks) as [[He Hout] | [[Hx Hh] [fig [Hout Hlen]]]];
    rewrite Hout.
  - split; split; try easy.
    + intros [Hx Hh]. destruct He; easy.
    + intros [fig [E _]]. discriminate.
  - split; split; try easy.
    + intros [Hx' | Hh']; easy.
    + intros _. now exists fig.
Qed.

(** The figures of a pass are those of the left column, the plot of h, the
    responses and the result, in this order; its outcome is the outcome of
    the result. *)
Lemma page_unfold (YMAX : R) (x : list R) (start_x : Z) (h : list R)
    (start_h : Z) :
  page YMAX x start_x h start_h =
  (fst (left_column YMAX x start_x)
   ++ plot_signal (n_h0 h start_h) h "h(n)"%string (xlim_h h start_h) YMAX
        (n_h0 h start_h) "C1"%string
      :: fst (convolution_steps YMAX x start_x h start_h)
   ++ fst (convolution_result YMAX x start_x h start_h),
   snd (convolution_result YMAX x start_x h start_h)).
Proof.
  unfold page, right_column.
  rewrite left_column_figures, convolution_steps_figures.
  destruct (convolution_result YMAX x start_x h start_h) as [shown r].
  reflexivity.
Qed.

Lemma left_column_length (YMAX : R) (x : list R) (start_x : Z) :
  List.length (fst (left_column YMAX x start_x)) = S (List.length x).
Proof.
  rewrite left_column_figures, decomposition_figures. cbn.
  now rewrite length_map, length_seq.
Qed.

(** X2. For non-empty x and h a pass raises nothing and shows
    [2 * len x + 3] figures: the plot of x, its [len x] components, the
    plot of h, the [len x] responses and the result, in this order. *)
Theorem page_outcome (YMAX : R) (x : list R) (start_x : Z) (h : list R)
    (start_h : Z) :
  x <> [] -> h <> [] ->
  let out := page YMAX x start_x h start_h in
  snd out = Ok tt /\
  List.length (fst out) = (2 * List.length x + 3)%nat /\
  exists result,
    convolution_result YMAX x start_x h start_h = ([result], Ok tt) /\
    fst out =
      plot_signal (n_x x start_x) x "x(n)"%string (xlim_x x start_x) YMAX
        (n_x x start_x) "C0"%string
      :: fst (decomposition YMAX x start_x)
      ++ plot_signal (n_h0 h start_h) h "h(n)"%string (xlim_h h start_h)
           YMAX (n_h0 h start_h) "C1"%string
         :: fst (convolution_steps YMAX x start_x h start_h)
      ++ [result].
Proof.
  intros Hx Hh. cbv zeta. rewrite page_unfold. cbn [fst snd].
  destruct (plot_convolution_result_cases x h start_x start_h
              (global_xlim x start_x h start_h) YMAX
              (global_ticks x start_x h start_h))
    as [[He _] | [_ [fig [Hout _]]]]; [destruct He; easy|].
  unfold convolution_result. rewrite Hout. cbn [fst snd].
  split; [reflexivity|]. split.
  - rewrite length_app, left_column_length. cbn [List.length].
    rewrite length_app, convolution_steps_figures. cbn [fst List.length].
    rewrite length_map, length_seq. lia.
  - exists fig. split; [reflexivity|].
    now rewrite left_column_figures.
Qed.

(** A property of figures holds of every figure of a pass when it holds of
    the plot of x, of each component, of the plot of h, of each response
    and of the result. *)
Lemma page_Forall (P : Figure -> Prop) (YMAX : R) (x : list R) (start_x : Z)
    (h : list R) (start_h : Z) :
  P (plot_signal (n_x x start_x) x "x(n)"%string (xlim_x x start_x) YMAX
       (n_x x start_x) "C0"%string) ->
  (forall k, (k < List.length x)%nat ->
     P (plot_signal_with_grid [start_x + Z.of_nat k] [nth k x rO]
          (xlim_x x start_x) YMAX (n_x x start_x) "C0"%string)) ->
  P (plot_signal (n_h0 h start_h) h "h(n)"%string (xlim_h h start_h) YMAX
       (n_h0 h start_h) "C1"%string) ->
  (forall k, (k < List.length x)%nat ->
     P (plot_signal_with_grid
          (arange (start_h + (start_x + Z.of_nat k))
                  (start_h + (start_x + Z.of_nat k) + len h))
          (scale (nth k x rO) h) (global_xlim x start_x h start_h) YMAX
          (global_ticks x start_x h start_h) "C1"%string)) ->
  (forall y, np_convolve x h = Ok y ->
     P (plot_signal (arange (start_x + start_h) (start_x + start_h + len y))
          y "y(n) = x(n) * h(n)"%string (global_xlim x start_x h start_h)
          YMAX (global_ticks x start_x h start_h) "C3"%string)) ->
  Forall P (fst (page YMAX x start_x h start_h)).
Proof.
  intros Px Pc Ph Ps Py. rewrite page_unfold. cbn [fst].
  rewrite left_column_figures, decomposition_figures,
    convolution_steps_figures. cbn [fst].
  constructor; [exact Px|]. apply Forall_app. split.
  { apply Forall_forall. intros fig Hfig.
    apply in_map_iff in Hfig as [k [<- Hk]]. apply in_seq in Hk.
    apply Pc. lia. }
  constructor; [exact Ph|]. apply Forall_app. split.
  { apply Forall_forall. intros fig Hfig.
    apply in_map_iff in Hfig as [k [<- Hk]]. apply in_seq in Hk.
    apply Ps. lia. }
  unfold convolution_result.
  destruct (np_convolve x h) as [y|e] eqn:Ey.
  - rewrite (plot_convolution_result_value _ _ _ _ _ _ _ y Ey). cbn [fst].
    constructor; [now apply Py | constructor].
  - rewrite (plot_convolution_result_raise _ _ _ _ _ _ _ e Ey). constructor.
Qed.

Lemma np_convolve_length (x h y : list R) :
  np_convolve x h = Ok y -> len y = len x + len h - 1 /\ 0 < len x /\ 0 < len h.
Proof.
  intros Hy. destruct (np_convolve_ok_nonempty x h y Hy) as [Hx Hh].
  rewrite np_convolve_acc in Hy by assumption. injection Hy as <-.
  unfold len. rewrite length_map, length_seq.
  destruct x; [easy|]. destruct h; [easy|]. cbn [List.length]. lia.
Qed.

(** X3. Whatever the inputs, every figure a pass shows is drawn from as
    many time indices as samples and with the upper y limit [YMAX]. *)
Theorem page_figures_well_formed (YMAX : R) (x : list R) (start_x : Z)
    (h : list R) (start_h : Z) :
  Forall (fun fig =>
            List.length (n_values fig) = List.length (signal_values fig) /\
            ylim fig = YMAX)
         (fst (page YMAX x start_x h start_h)).
Proof.
  apply page_Forall;
    cbn [n_values signal_values ylim plot_signal plot_signal_with_grid].
  - split; [|reflexivity]. unfold n_x. rewrite arange_length. unfold len. lia.
  - intros k _. split; reflexivity.
  - split; [|reflexivity]. unfold n_h0. rewrite arange_length.
    unfold len. lia.
  - intros k _. split; [|reflexivity]. rewrite arange_length.
    unfold len, scale. rewrite length_map. lia.
  - intros y _. split; [|reflexivity]. rewrite arange_length.
    unfold len. lia.
Qed.

(** X4. Whatever the inputs, every stem of every figure a pass shows lies
    strictly inside the x limits of its figure and on one of its ticks: no
    sample is drawn outside the visible window or between ticks. *)
Theorem page_stems_visible (YMAX : R) (x : list R) (start_x : Z)
    (h : list R) (start_h : Z) :
  Forall (fun fig =>
            forall t, In t (n_values fig) ->
              fst (xlim fig) < t < snd (xlim fig) /\ In t (xticks fig))
         (fst (page YMAX x start_x h start_h)).
Proof.
  apply page_Forall;
    cbn [n_values xlim xticks plot_signal plot_signal_with_grid].
  - intros t Ht. split; [|exact Ht].
    apply in_arange in Ht. cbn [xlim_x fst snd]. lia.
  - intros k Hk t [<- | []]. unfold n_x. rewrite in_arange.
    cbn [xlim_x fst snd]. unfold len. lia.
  - intros t Ht. split; [|exact Ht].
    apply in_arange in Ht. cbn [xlim_h fst snd]. lia.
  - intros k Hk t Ht. apply in_arange in Ht.
    unfold global_ticks. rewrite in_arange.
    unfold global_xlim, global_min, global_max, end_y, start_y.
    cbn [fst snd]. unfold len in *. lia.
  - intros y Hy t Ht. apply in_arange in Ht.
    destruct (np_convolve_length x h y Hy) as [Ly [Lx Lh]].
    unfold global_ticks. rewrite in_arange.
    unfold global_xlim, global_min, global_max, end_y, start_y.
    cbn [fst snd]. lia.
Qed.

(** For operands of different lengths [np.convolve] runs the same
    computation in either order of its arguments. *)
Lemma np_convolve_swap (x h : list R) :
  List.length x <> List.length h -> np_convolve x h = np_convolve h x.
Proof.
  intros Hlen. unfold np_convolve.
  destruct (Nat.ltb_spec (List.length x) (List.length h));
    destruct (Nat.ltb_spec (List.length h) (List.length x));
    try reflexivity; lia.
Qed.

Lemma global_axis_symmetric (x : list R) (start_x : Z) (h : list R)
    (start_h : Z) :
  global_ticks x start_x h start_h = global_ticks h start_h x start_x /\
  global_xlim x start_x h start_h = global_xlim h start_h x start_x.
Proof.
  unfold global_ticks, global_xlim, global_min, global_max, end_y, start_y.
  split; f_equal; lia.
Qed.

(** X5. When x and h differ in length, exchanging their roles changes
    nothing in the result: [plot_convolution_result] on
    (h, start_h, x, start_x) with the global axis of that order shows the
    same figure, samples, ticks and limits, or raises the same error.
    NumPy then works on the same operands in the same order, so that this
    holds of every sample arithmetic, rounding included. *)
Theorem convolution_result_symmetric (YMAX : R) (x : list R) (start_x : Z)
    (h : list R) (start_h : Z) :
  List.length x <> List.length h ->
  convolution_result YMAX x start_x h start_h =
  convolution_result YMAX h start_h x start_x.
Proof.
  intros Hlen. unfold convolution_result, plot_convolution_result.
  destruct (global_axis_symmetric x start_x h start_h) as [<- <-].
  rewrite (np_convolve_swap x h Hlen), (Z.add_comm start_h start_x).
  reflexivity.
Qed.

(** ** Moving and combining signals *)

(** X6. Moving the start of x or of h by [d] moves every stem of every
    component, response and result by [d] along the time axis and keeps all
    samples and the outcome. *)
Theorem start_index_moves_stems (YMAX : R) (x : list R) (start_x : Z)
    (h : list R) (start_h d : Z) :
  map stems (fst (decomposition YMAX x (start_x + d))) =
    map (delay d) (map stems (fst (decomposition YMAX x start_x))) /\
  map stems (fst (convolution_steps YMAX x (start_x + d) h start_h)) =
    map (delay d) (map stems (fst (convolution_steps YMAX x start_x h start_h)))
  /\
  map stems (fst (convolution_steps YMAX x start_x h (start_h + d))) =
    map (delay d) (map stems (fst (convolution_steps YMAX x start_x h start_h)))
  /\
  map stems (fst (convolution_result YMAX x (start_x + d) h start_h)) =
    map (delay d) (map stems (fst (convolution_result YMAX x start_x h start_h)))
  /\
  map stems (fst (convolution_result YMAX x start_x h (start_h + d))) =
    map (delay d) (map stems (fst (convolution_result YMAX x start_x h start_h)))
  /\
  snd (convolution_result YMAX x (start_x + d) h start_h) =
    snd (convolution_result YMAX x start_x h start_h) /\
  snd (convolution_result YMAX x start_x h (start_h + d)) =
    snd (convolution_result YMAX x start_x h start_h).
Proof.
  split; [|split; [|split]].
  - rewrite !decomposition_figures. cbn [fst]. rewrite !map_map.
    apply map_ext. intros k. unfold stems, delay. cbn. do 2 f_equal. lia.
  - rewrite !convolution_steps_figures. cbn [fst]. rewrite !map_map.
    apply map_ext. intros k. unfold stems, delay. cbn [fst snd n_values
      signal_values plot_signal_with_grid].
    rewrite shift_arange. do 2 f_equal; lia.
  - rewrite !convolution_steps_figures. cbn [fst]. rewrite !map_map.
    apply map_ext. intros k. unfold stems, delay. cbn [fst snd n_values
      signal_values plot_signal_with_grid].
    rewrite shift_arange. do 2 f_equal; lia.
  - unfold convolution_result. destruct (np_convolve x h) as [y|e] eqn:Ey.
    + rewrite !(plot_convolution_result_value _ _ _ _ _ _ _ y Ey).
      unfold stems, delay.
      cbn [map fst snd n_values signal_values plot_signal].
      rewrite shift_arange.
      repeat split; do 3 f_equal; lia.
    + rewrite !(plot_convolution_result_raise _ _ _ _ _ _ _ e Ey).
      repeat split.
Qed.

(** X7. For non-empty x and h the stems of the result stand exactly on the
    indices from [start_y] to [end_y] as [app.py] computes them for the
    global axis: the span the script plans is the span
    [plot_convolution_result] draws. *)
Theorem result_spans_start_y_to_end_y (YMAX : R) (x : list R) (start_x : Z)
    (h : list R) (start_h : Z) :
  x <> [] -> h <> [] ->
  exists fig,
    convolution_result YMAX x start_x h start_h = ([fig], Ok tt) /\
    n_values fig =
      arange (start_y start_x start_h) (end_y x start_x h start_h + 1) /\
    (forall t, In t (n_values fig) <->
               start_y start_x start_h <= t <= end_y x start_x h start_h).
Proof.
  intros Hx Hh. destruct (np_convolve_ok x h Hx Hh) as [y [Hy Hlen]].
  eexists. split.
  { unfold convolution_result.
    apply (plot_convolution_result_value _ _ _ _ _ _ _ y Hy). }
  assert (Ly : len y = len x + len h - 1).
  { unfold len. destruct x; [easy|]. cbn [List.length] in *. lia. }
  cbn [n_values plot_signal]. unfold end_y, start_y. rewrite Ly.
  split; [f_equal; lia|].
  intros t. rewrite in_arange. lia.
Qed.






(** ** Format strings *)

(** X11. The line and marker formats of both plotting functions are the
    colour tag followed by "-" and by "o", for every colour: the special
    case the code makes for 'C0' gives the same strings. *)
Theorem stem_formats_follow_color (color : string) :
  linefmt color = (color ++ "-")%string /\
  markerfmt color = (color ++ "o")%string.
Proof.
  unfold linefmt, markerfmt.
  destruct (String.eqb_spec color "C0") as [-> | _]; split; reflexivity.
Qed.

(** ** The response loop on arbitrary arguments *)

Lemma getitem_indexable (x : list R) (j : Z) :
  indexable x j -> getitem x j = Ok (nth (Z.to_nat (j mod len x)) x rO).
Proof.
  unfold indexable, getitem. intros Hj.
  destruct (Z.leb_spec 0 j) as [H0 | H0].
  - destruct (Z.ltb_spec j (len x)); [|lia]. cbn [andb].
    now rewrite Z.mod_small by lia.
  - cbn [andb]. destruct (Z.leb_spec (- len x) j); [|lia].
    destruct (Z.ltb_spec j 0); [|lia]. cbn [andb].
    rewrite <- (Z_mod_plus_full j 1 (len x)).
    rewrite Z.mod_small by lia. do 3 f_equal. lia.
Qed.

Lemma getitem_not_indexable (x : list R) (j : Z) :
  ~ indexable x j -> getitem x j = Raise IndexError.
Proof.
  unfold indexable, getitem. intros Hj.
  destruct (Z.leb_spec 0 j); destruct (Z.ltb_spec j (len x));
    destruct (Z.leb_spec (- len x) j); destruct (Z.ltb_spec j 0);
    cbn [andb]; try reflexivity; lia.
Qed.

Lemma for_each_app_ok {A : Type} (pre rest : list A)
    (body : A -> Render unit) (figs : list Figure) :
  for_each pre body = (figs, Ok tt) ->
  for_each (pre ++ rest) body =
  (figs ++ fst (for_each rest body), snd (for_each rest body)).
Proof.
  revert figs. induction pre as [|i pre IH]; intros figs H.
  - cbn in H. injection H as <-. cbn. now destruct (for_each rest body).
  - cbn [for_each List.app] in *. destruct (body i) as [shown [[]|e]];
      cbn [bind] in *; [|discriminate].
    destruct (for_each pre body) as [shown' r] eqn:E.
    injection H as <- ->. rewrite (IH shown' eq_refl).
    now rewrite app_assoc.
Qed.

(** X12. [plot_shifted_impulse_responses] does not raise as long as every
    position [i - start_x] lies in [-len x, len x): it draws one figure per
    time index, and its coefficient is [x[(i - start_x) mod len x]], so
    that a time index below [start_x] silently takes its coefficient from
    the end of x. *)
Theorem responses_wrap_around (n_x : list Z) (x : list R) (start_x : Z)
    (h : list R) (n_h0 : list Z) (gxlim : Z * Z) (ymax : R)
    (gticks : list Z) :
  Forall (fun i => indexable x (i - start_x)) n_x ->
  plot_shifted_impulse_responses n_x x start_x h n_h0 gxlim ymax gticks =
  (map (fun i => plot_signal_with_grid (shift n_h0 i)
                   (scale (nth (Z.to_nat ((i - start_x) mod len x)) x rO) h)
                   gxlim ymax gticks "C1"%string)
       n_x,
   Ok tt).
Proof.
  intros Hall. unfold plot_shifted_impulse_responses.
  apply for_each_shows. intros i Hi.
  rewrite Forall_forall in Hall.
  now rewrite (getitem_indexable x _ (Hall i Hi)).
Qed.

(** X13. [plot_shifted_impulse_responses] stops at the first time index
    whose position [i - start_x] lies outside [-len x, len x): it raises
    [IndexError] there, after the figures of the time indices before it
    and without any figure for the ones after it. *)
Theorem responses_stop_at_bad_index (pre post : list Z) (i : Z)
    (x : list R) (start_x : Z) (h : list R) (n_h0 : list Z)
    (gxlim : Z * Z) (ymax : R) (gticks : list Z) :
  Forall (fun k => indexable x (k - start_x)) pre ->
  ~ indexable x (i - start_x) ->
  plot_shifted_impulse_responses (pre ++ i :: post) x start_x h n_h0
    gxlim ymax gticks =
  (map (fun k => plot_signal_with_grid (shift n_h0 k)
                   (scale (nth (Z.to_nat ((k - start_x) mod len x)) x rO) h)
                   gxlim ymax gticks "C1"%string)
       pre,
   Raise IndexError).
Proof.
  intros Hpre Hbad. unfold plot_shifted_impulse_responses.
  erewrite for_each_app_ok.
  2:{ apply for_each_shows. intros k Hk.
      rewrite Forall_forall in Hpre.
      now rewrite (getitem_indexable x _ (Hpre k Hk)). }
  cbn [for_each]. rewrite (getitem_not_indexable x _ Hbad).
  cbn. now rewrite app_nil_r.
Qed.

(** ** Captions and figures on the page *)

Lemma for_each_display_shows {A : Type} (xs : list A)
    (body : A -> Display unit) (g : A -> list Element) :
  (forall i, In i xs -> body i = (g i, Ok tt)) ->
  for_each_display xs body = (flat_map g xs, Ok tt).
Proof.
  induction xs as [|i rest IH]; intros Hbody; [reflexivity|].
  cbn [for_each_display flat_map]. rewrite (Hbody i) by now left.
  cbn [bind_display]. rewrite IH by (intros j Hj; apply Hbody; now right).
  reflexivity.
Qed.

Lemma figures_of_app (u v : list Element) :
  figures_of (u ++ v) = figures_of u ++ figures_of v.
Proof.
  induction u as [|e u IH]; [reflexivity|].
  destruct e; cbn; now rewrite IH.
Qed.

(** A loop with captions shows the figures of the loop without them when
    each body does. *)
Lemma for_each_display_figures {A : Type} (xs : list A)
    (body : A -> Render unit) (body' : A -> Display unit) :
  (forall i, figures_of (fst (body' i)) = fst (body i) /\
             snd (body' i) = snd (body i)) ->
  figures_of (fst (for_each_display xs body')) = fst (for_each xs body) /\
  snd (for_each_display xs body') = snd (for_each xs body).
Proof.
  intros Hbody. induction xs as [|i rest [IHf IHs]]; [now split|].
  cbn [for_each_display for_each]. destruct (Hbody i) as [Hf Hs].
  destruct (body' i) as [shown' r']. destruct (body i) as [shown r].
  cbn [fst snd] in Hf, Hs. subst r' shown.
  destruct r as [[]|e]; cbn [bind bind_display]; [|now split].
  destruct (for_each_display rest body') as [w' q'].
  destruct (for_each rest body) as [w q]. cbn [fst snd] in *.
  rewrite figures_of_app. now subst.
Qed.

(** X14. [plot_shifted_impulse_responses] puts on the page its two
    Markdown lines and then, for each time index, the caption of the
    response directly followed by its figure.  The figures and the outcome
    are those of the loop taken without its captions, for all arguments;
    when no lookup fails the page is exactly this alternation. *)
Theorem responses_page_layout (n_x : list Z) (x : list R) (start_x : Z)
    (h : list R) (n_h0 : list Z) (gxlim : Z * Z) (ymax : R)
    (gticks : list Z) :
  let shown := plot_shifted_impulse_responses_display n_x x start_x h n_h0
                 gxlim ymax gticks in
  let drawn := plot_shifted_impulse_responses n_x x start_x h n_h0
                 gxlim ymax gticks in
  figures_of (fst shown) = fst drawn /\
  snd shown = snd drawn /\
  (Forall (fun i => indexable x (i - start_x)) n_x ->
   fst shown =
     Markdown "### Convolution Steps"
     :: Markdown
          "Each component of x(n) produces a shifted and scaled version of h(n):"
     :: flat_map
          (fun i =>
             [Latex (response_caption i);
              Pyplot (plot_signal_with_grid (shift n_h0 i)
                        (scale (nth (Z.to_nat ((i - start_x) mod len x)) x rO)
                               h)
                        gxlim ymax gticks "C1"%string)])
          n_x).
Proof.
  cbv zeta.
  unfold plot_shifted_impulse_responses_display,
    plot_shifted_impulse_responses.
  set (body' := fun i : Z => _ <~ lift_display (getitem x (i - start_x)) ;; _).
  set (body := fun i : Z => _ <- lift (getitem x (i - start_x)) ;; _).
  assert (Hbody : forall i, figures_of (fst (body' i)) = fst (body i) /\
                            snd (body' i) = snd (body i)).
  { intros i. unfold body', body.
    destruct (getitem x (i - start_x)); now split. }
  destruct (for_each_display_figures n_x body body' Hbody) as [Hf Hs].
  cbn [st_markdown bind_display].
  destruct (for_each_display n_x body') as [w r] eqn:E.
  cbn [fst snd List.app figures_of] in *.
  split; [exact Hf|]. split; [exact Hs|].
  intros Hall. rewrite Forall_forall in Hall.
  do 2 f_equal.
  rewrite (for_each_display_shows n_x body'
    (fun i => [Latex (response_caption i);
               Pyplot (plot_signal_with_grid (shift n_h0 i)
                         (scale (nth (Z.to_nat ((i - start_x) mod len x)) x rO)
                                h)
                         gxlim ymax gticks "C1"%string)])) in E.
  - now injection E as <- _.
  - intros i Hi. unfold body'.
    now rewrite (getitem_indexable x _ (Hall i Hi)).
Qed.

(** X15. The decomposition part of the script puts on the page its two
    Markdown lines and then, for each sample of x in order, the caption of
    the component directly followed by its figure; the figures are those of
    the loop taken without its captions. *)
Theorem decomposition_page_layout (YMAX : R) (x : list R) (start_x : Z) :
  decomposition_display YMAX x start_x =
  (Markdown "### Signal Decomposition"
   :: Markdown "Breaking down x(n) into scaled and shifted unit impulses:"
   :: flat_map
        (fun k =>
           [Latex (delta_caption (start_x + Z.of_nat k));
            Pyplot (plot_signal_with_grid [start_x + Z.of_nat k] [nth k x rO]
                      (xlim_x x start_x) YMAX (n_x x start_x) "C0"%string)])
        (seq 0 (List.length x)),
   Ok tt) /\
  figures_of (fst (decomposition_display YMAX x start_x)) =
    fst (decomposition YMAX x start_x).
Proof.
  assert (E : decomposition_display YMAX x start_x =
    (Markdown "### Signal Decomposition"
     :: Markdown "Breaking down x(n) into scaled and shifted unit impulses:"
     :: flat_map
          (fun k =>
             [Latex (delta_caption (start_x + Z.of_nat k));
              Pyplot (plot_signal_with_grid [start_x + Z.of_nat k]
                        [nth k x rO] (xlim_x x start_x) YMAX
                        (n_x x start_x) "C0"%string)])
          (seq 0 (List.length x)),
     Ok tt)).
  { unfold decomposition_display.
    set (body' := fun i : Z => st_latex (delta_caption i) ~;; _).
    rewrite n_x_seq.
    rewrite (for_each_display_shows _ body'
      (fun i => [Latex (delta_caption i);
                 Pyplot (plot_signal_with_grid [i]
                           [nth (Z.to_nat (i - start_x)) x rO]
                           (xlim_x x start_x) YMAX (n_x x start_x)
                           "C0"%string)])).
    - cbn [st_markdown bind_display List.app]. do 3 f_equal.
      rewrite flat_map_concat_map, map_map, <- flat_map_concat_map.
      apply flat_map_ext. intros k.
      replace (start_x + Z.of_nat k - start_x) with (Z.of_nat k) by lia.
      now rewrite Nat2Z.id, n_x_seq.
    - intros i Hi. apply in_map_iff in Hi as [k [<- Hk]].
      apply in_seq in Hk. unfold body'.
      rewrite getitem_offset by lia. cbn.
      replace (start_x + Z.of_nat k - start_x) with (Z.of_nat k) by lia.
      now rewrite Nat2Z.id. }
  split; [exact E|]. rewrite E, decomposition_figures. clear E.
  cbn [fst figures_of].
  induction (seq 0 (List.length x)) as [|k l IH]; [reflexivity|].
  cbn [flat_map List.app figures_of map]. f_equal. exact IH.
Qed.

(** X16. [plot_convolution_result] puts its two Markdown lines on the page
    before it computes anything: the page holds them, followed by the
    figure of the result when there is one, and they are there as well
    when the convolution raises for an empty input. *)
Theorem convolution_result_page_layout (x h : list R) (start_x start_h : Z)
    (gxlim : Z * Z) (ymax : R) (gticks : list Z) :
  plot_convolution_result_display x h start_x start_h gxlim ymax gticks =
  (Markdown "### Convolution Result"
   :: Markdown "The output y(n) is the sum of all shifted impulse responses:"
   :: map Pyplot
        (fst (plot_convolution_result x h start_x start_h gxlim ymax gticks)),
   snd (plot_convolution_result x h start_x start_h gxlim ymax gticks)) /\
  (x = [] \/ h = [] ->
   plot_convolution_result_display x h start_x start_h gxlim ymax gticks =
   ([Markdown "### Convolution Result";
     Markdown "The output y(n) is the sum of all shifted impulse responses:"],
    Raise ValueError)).
Proof.
  assert (E : plot_convolution_result_display x h start_x start_h gxlim ymax
                gticks =
    (Markdown "### Convolution Result"
     :: Markdown
          "The output y(n) is the sum of all shifted impulse responses:"
     :: map Pyplot
          (fst (plot_convolution_result x h start_x start_h gxlim ymax
                  gticks)),
     snd (plot_convolution_result x h start_x start_h gxlim ymax gticks))).
  { unfold plot_convolution_result_display, plot_convolution_result.
    destruct (np_convolve x h); reflexivity. }
  split; [exact E|]. intros Hempty. rewrite E.
  destruct (plot_convolution_result_cases x h start_x start_h gxlim ymax
              gticks) as [[_ Hout] | [[Hx Hh] _]].
  - now rewrite Hout.
  - destruct Hempty; easy.
Qed.

Lemma str_has_no_paren (i : Z) : has_char ")"%char (str i) = false.
Proof.
  unfold str.
  assert (H : forall d, has_char ")"%char (NilEmpty.string_of_uint d) = false)
    by (induction d; cbn; auto).
  destruct (Z.to_int i); cbn; apply H.
Qed.

Lemma closed_prefix_unique (s1 s2 r1 r2 : string) :
  has_char ")"%char s1 = false -> has_char ")"%char s2 = false ->
  (s1 ++ String ")"%char r1 = s2 ++ String ")"%char r2)%string ->
  s1 = s2.
Proof.
  revert s2. induction s1 as [|c1 s1 IH]; intros [|c2 s2] H1 H2 E;
    cbn [append] in E; cbn [has_char] in H1, H2.
  - reflexivity.
  - injection E as Ec _. subst c2.
    rewrite Ascii.eqb_refl in H2. discriminate.
  - injection E as Ec _. subst c1.
    rewrite Ascii.eqb_refl in H1. discriminate.
  - injection E as -> E.
    apply orb_false_iff in H1 as [_ H1].
    apply orb_false_iff in H2 as [_ H2].
    f_equal. now apply IH.
Qed.

Lemma str_injective (i j : Z) : str i = str j -> i = j.
Proof.
  unfold str. intros E. apply to_int_inj.
  assert (S : Some (Z.to_int i) = Some (Z.to_int j))
    by now rewrite <- !NilEmpty.isi, E.
  now injection S.
Qed.

(** X17. Captions name their time index without ambiguity: two components
    with different time indices get different captions, and so do two
    responses. *)
Theorem captions_distinguish_indices (i j : Z) :
  (delta_caption i = delta_caption j -> i = j) /\
  (response_caption i = response_caption j -> i = j).
Proof.
  split; intros E; apply str_injective;
    unfold delta_caption, response_caption in E;
    destruct (0 <=? i); destruct (0 <=? j);
    cbn [append] in E; injection E as E;
    exact (closed_prefix_unique _ _ _ _
             (str_has_no_paren i) (str_has_no_paren j) E).
Qed.

(** ** The result as the sum of the responses, in the order of the sums *)

Lemma acc_length (x h : list R) (a v : list R) :
  x <> [] ->
  len (map (conv_acc a v) (seq 0 (List.length x + List.length h - 1))) =
  len x + len h - 1.
Proof.
  intros Hx. unfold len. rewrite length_map, length_seq.
  destruct x; [easy|]. cbn [List.length]. lia.
Qed.

Lemma convolution_result_acc (YMAX : R) (x : list R) (start_x : Z)
    (h : list R) (start_h : Z) :
  x <> [] -> h <> [] ->
  convolution_result YMAX x start_x h start_h =
  ([plot_signal
      (arange (start_x + start_h) (start_x + start_h + (len x + len h - 1)))
      (map (conv_acc (fst (operands x h)) (snd (operands x h)))
           (seq 0 (List.length x + List.length h - 1)))
      "y(n) = x(n) * h(n)"%string (global_xlim x start_x h start_h) YMAX
      (global_ticks x start_x h start_h) "C3"%string],
   Ok tt).
Proof.
  intros Hx Hh. unfold convolution_result.
  rewrite (plot_convolution_result_value _ _ _ _ _ _ _ _
             (np_convolve_acc x h Hx Hh)).
  now rewrite acc_length by assumption.
Qed.











(** With the ring laws the accumulated sums are the sums of the
    specification. *)
Lemma acc_is_spec (x h : list R) :
  x <> [] -> h <> [] ->
  map (conv_acc (fst (operands x h)) (snd (operands x h)))
      (seq 0 (List.length x + List.length h - 1)) =
  map (conv_spec x h) (seq 0 (List.length x + List.length h - 1)).
Proof.
  intros Hx Hh. pose proof (np_convolve_spec x h Hx Hh) as E.
  rewrite np_convolve_acc in E by assumption. now injection E.
Qed.

End SignalLab.

(** ** The convolution claims on any sample arithmetic

    The statements of this section assume nothing of the arithmetic of the
    samples unless a premise says so; they hold of binary64. *)

Section AnyArithmetic.

Variable R : Type.
Variables (rO rI : R) (radd rmul rsub : R -> R -> R) (ropp : R -> R).


(** C7, as the program has it.  For non-empty x and h,
    [convolve(x, h, sx, sh)] and [convolve(h, x, sh, sx)] have the same
    number of samples and both start at [sx + sh].  Their samples are equal
    at every position when x and h differ in length, since NumPy then works
    on the same operands in the same order.  When the lengths are equal,
    the sample at [n] accumulates the products [x[j] * h[n - j]] in the one
    and [h[j] * x[n - j]] in the other, for ascending [j]: the two are
    equal when the arithmetic is exact, and can differ by rounding. *)
Theorem convolve_commutes_by_length (YMAX : R) (x : list R) (sx : Z)
    (h : list R) (sh : Z) :
  x <> [] -> h <> [] ->
  exists y y',
    np_convolve R rO radd rmul x h = Ok y /\
    np_convolve R rO radd rmul h x = Ok y' /\
    List.length y = (List.length x + List.length h - 1)%nat /\
    List.length y' = List.length y /\
    map (stems R) (fst (convolution_result R rO radd rmul YMAX x sx h sh)) =
      [(arange (sx + sh) (sx + sh + len y), y)] /\
    map (stems R) (fst (convolution_result R rO radd rmul YMAX h sh x sx)) =
      [(arange (sx + sh) (sx + sh + len y), y')] /\
    hd_error (arange (sx + sh) (sx + sh + len y)) = Some (sx + sh) /\
    (List.length x <> List.length h -> y' = y) /\
    (forall n, (n < List.length y)%nat ->
       nth n y rO =
         conv_acc R rO radd rmul (fst (operands R x h)) (snd (operands R x h))
                  n /\
       nth n y' rO =
         conv_acc R rO radd rmul (fst (operands R h x)) (snd (operands R h x))
                  n) /\
    (ring_theory rO rI radd rmul rsub ropp (@eq R) -> y' = y).
Proof.
  intros Hx Hh.
  assert (Lx : (1 <= List.length x)%nat) by (destruct x; [easy | cbn; lia]).
  assert (Lh : (1 <= List.length h)%nat) by (destruct h; [easy | cbn; lia]).
  eexists. eexists.
  split; [apply np_convolve_acc; assumption|].
  split; [apply np_convolve_acc; assumption|].
  split; [now rewrite length_map, length_seq|].
  split; [rewrite !length_map, !length_seq; lia|].
  rewrite !convolution_result_acc by assumption.
  rewrite !acc_length by assumption.
  unfold stems. cbn [map fst n_values signal_values plot_signal].
  split; [reflexivity|].
  split; [do 3 f_equal; lia|].
  split; [apply arange_hd; unfold len; lia|].
  split.
  { intros Hlen.
    pose proof (np_convolve_swap R rO radd rmul x h Hlen) as E.
    rewrite !np_convolve_acc in E by assumption. now injection E. }
  split.
  { intros n Hn. rewrite length_map, length_seq in Hn.
    split; rewrite nth_map_seq by lia; reflexivity. }
  intros Rth.
  rewrite !(acc_is_spec R rO rI radd rmul rsub ropp Rth) by assumption.
  rewrite (Nat.add_comm (List.length h)).
  apply map_ext. intros n.
  apply (conv_spec_comm R rO rI radd rmul rsub ropp Rth).
Qed.


End AnyArithmetic.


(** ** The theorems at integer and at binary64 samples

    Statements are instantiated at the integers on x = [1, 2, 1] starting
    at -1 and h = [1, 1] starting at 3, and at binary64 on
    x = [1e16, 1, 1] with h = [1, 1, 1] or h = [1, 1, 1, 1], unless said
    otherwise.  In binary64 the neighbours of 1e16 are 2 apart, so that
    1e16 + 1 rounds back to 1e16 while 1e16 + 2 is exact. *)

Local Abbreviation x1 := [1; 2; 1].
Local Abbreviation h1 := [1; 1].
Local Abbreviation F64 := PrimFloat.float.
Local Abbreviation f0 := (float_of_Z 0).
Local Abbreviation xf := (map float_of_Z [10 ^ 16; 1; 1]).
Local Abbreviation hf := (map float_of_Z [1; 1; 1]).
Local Abbreviation hf4 := (map float_of_Z [1; 1; 1; 1]).

Lemma decompose_components_witness :
  x1 <> [] /\
  exists figs,
    decomposition Z 0 10 x1 (-1) = (figs, Ok tt) /\
    List.length figs = 3%nat /\
    map (stems Z) figs = [([-1], [1]); ([0], [2]); ([1], [1])] /\
    StronglySorted Z.lt (List.concat (map (n_values Z) figs)).
Proof.
  split; [discriminate|].
  apply (decompose_components Z 0 10 x1 (-1)). discriminate.
Defined.

Lemma coefficient_lookup_in_bounds_witness :
  x1 <> [] /\
  (forall i, In i (n_x Z x1 (-1)) ->
     0 <= i - -1 < 3 /\
     getitem Z 0 x1 (i - -1) = Ok (nth (Z.to_nat (i - -1)) x1 0)) /\
  snd (decomposition Z 0 10 x1 (-1)) = Ok tt /\
  snd (plot_shifted_impulse_responses Z 0 Z.mul (n_x Z x1 (-1)) x1 (-1) h1
         (n_h0 Z h1 3) (-3, 6) 10 [-1; 0; 1; 2; 3; 4]) = Ok tt.
Proof.
  split; [discriminate|].
  apply (coefficient_lookup_in_bounds Z 0 Z.mul 10 x1 (-1) h1 3
           (-3, 6) [-1; 0; 1; 2; 3; 4]).
  discriminate.
Defined.

Lemma single_axis_plan_witness :
  x1 <> [] /\
  n_x Z x1 (-1) = [-1; 0; 1] /\ xlim_x Z x1 (-1) = (-3, 4).
Proof.
  split; [discriminate|].
  destruct (single_axis_plan Z 0 10 x1 (-1)) as [_ [_ [_ [Hlim _]]]];
    [discriminate|].
  split; [reflexivity | exact Hlim].
Defined.

Lemma global_axis_plan_witness :
  x1 <> [] /\ h1 <> [] /\
  global_min (-1) 3 = -1 /\ global_max Z x1 (-1) h1 3 = 5 /\
  global_xlim Z x1 (-1) h1 3 = (-3, 7) /\
  forall t, 2 <= t <= 5 -> -1 <= t <= 5.
Proof.
  split; [discriminate|]. split; [discriminate|].
  destruct (global_axis_plan Z x1 (-1) h1 3)
    as [_ [_ [Hmin [Hmax [_ [_ [Hlim [_ [_ Hy]]]]]]]]]; try discriminate.
  split; [exact Hmin|]. split; [exact Hmax|]. split; [exact Hlim|].
  exact Hy.
Defined.

Lemma steps_within_output_span_witness :
  x1 <> [] /\ h1 <> [] /\
  forall fig, In fig (fst (convolution_steps Z 0 Z.mul 10 x1 (-1) h1 3)) ->
    xticks Z fig = global_ticks Z x1 (-1) h1 3 /\
    xlim Z fig = global_xlim Z x1 (-1) h1 3 /\
    forall t, In t (n_values Z fig) ->
      -1 + 3 <= t <= -1 + 3 + 3 + 2 - 2 /\
      global_min (-1) 3 <= t <= global_max Z x1 (-1) h1 3 /\
      In t (global_ticks Z x1 (-1) h1 3).
Proof.
  split; [discriminate|]. split; [discriminate|].
  apply (steps_within_output_span Z 0 Z.mul 10 x1 (-1) h1 3); discriminate.
Defined.


(** C8 as the specification states it fails on the program: a padding of
    2 on each side of the span 0..2 of x = [1, 2, 1] would put the upper
    limit at 4; the script sets it to 5. *)
Lemma single_axis_padding_counterexample :
  n_x Z x1 0 = [0; 1; 2] /\
  xlim_x Z x1 0 = (-2, 5) /\
  hd (0) (n_x Z x1 0) - fst (xlim_x Z x1 0) = 2 /\
  snd (xlim_x Z x1 0) - last (n_x Z x1 0) 0 = 3 /\
  snd (xlim_x Z x1 0) <> last (n_x Z x1 0) 0 + 2.
Proof. repeat split; try reflexivity. discriminate. Qed.



Lemma convolve_commutes_by_length_witness :
  xf <> [] /\ hf4 <> [] /\
  exists y,
    np_convolve F64 f0 PrimFloat.add PrimFloat.mul xf hf4 = Ok y /\
    np_convolve F64 f0 PrimFloat.add PrimFloat.mul hf4 xf = Ok y.
Proof.
  assert (Hx : xf <> []) by (cbn; discriminate).
  assert (Hh : hf4 <> []) by (cbn; discriminate).
  split; [exact Hx|]. split; [exact Hh|].
  destruct (convolve_commutes_by_length F64 f0 f0 PrimFloat.add
              PrimFloat.mul PrimFloat.sub PrimFloat.opp f0 xf 0 hf4 0 Hx Hh)
    as [y [y' [Hy [Hy' [_ [_ [_ [_ [_ [Hdiff _]]]]]]]]]].
  exists y. split; [exact Hy|].
  rewrite Hy'. f_equal. apply Hdiff. cbn. discriminate.
Defined.

(** C7 as the specification states it fails on the program.  For the
    equally long x = [1e16, 1, 1] and h = [1, 1, 1] the two orders of the
    arguments give different samples at position 2: 1e16 and 1e16 + 2. *)
Lemma convolve_commutes_counterexample :
  np_convolve F64 f0 PrimFloat.add PrimFloat.mul xf hf =
    Ok (map float_of_Z [10 ^ 16; 10 ^ 16; 10 ^ 16; 2; 1]) /\
  np_convolve F64 f0 PrimFloat.add PrimFloat.mul hf xf =
    Ok (map float_of_Z [10 ^ 16; 10 ^ 16; 10 ^ 16 + 2; 2; 1]) /\
  np_convolve F64 f0 PrimFloat.add PrimFloat.mul xf hf <>
  np_convolve F64 f0 PrimFloat.add PrimFloat.mul hf xf.
Proof.
  split; [vm_compute; reflexivity|].
  split; [vm_compute; reflexivity|].
  intros E.
  apply (f_equal (fun r => match r with
                           | Ok y => PrimFloat.eqb (nth 2 y f0)
                                       (float_of_Z (10 ^ 16))
                           | Raise _ => true
                           end)) in E.
  vm_compute in E. discriminate.
Qed.



(** ** Further statements at integer samples *)

Lemma page_outcome_witness :
  x1 <> [] /\ h1 <> [] /\
  snd (page Z 0 Z.add Z.mul 10 x1 (-1) h1 3) = Ok tt /\
  List.length (fst (page Z 0 Z.add Z.mul 10 x1 (-1) h1 3)) = 9%nat.
Proof.
  split; [discriminate|]. split; [discriminate|].
  destruct (page_outcome Z 0 Z.add Z.mul 10 x1 (-1) h1 3) as [Hok [Hlen _]];
    [discriminate | discriminate |].
  split; [exact Hok | exact Hlen].
Defined.

Lemma convolution_result_symmetric_witness :
  List.length (map float_of_Z [10 ^ 16; 1; 1])
    <> List.length (map float_of_Z [1; 1; 1; 1]) /\
  convolution_result PrimFloat.float (float_of_Z 0) PrimFloat.add
    PrimFloat.mul (float_of_Z 10)
    (map float_of_Z [10 ^ 16; 1; 1]) (-1) (map float_of_Z [1; 1; 1; 1]) 3 =
  convolution_result PrimFloat.float (float_of_Z 0) PrimFloat.add
    PrimFloat.mul (float_of_Z 10)
    (map float_of_Z [1; 1; 1; 1]) 3 (map float_of_Z [10 ^ 16; 1; 1]) (-1).
Proof.
  split; [discriminate|].
  apply (convolution_result_symmetric PrimFloat.float (float_of_Z 0)
           PrimFloat.add PrimFloat.mul).
  discriminate.
Defined.

Lemma result_spans_start_y_to_end_y_witness :
  x1 <> [] /\ h1 <> [] /\
  exists fig,
    convolution_result Z 0 Z.add Z.mul 10 x1 (-1) h1 3 = ([fig], Ok tt) /\
    n_values Z fig = arange 2 (5 + 1) /\
    (forall t, In t (n_values Z fig) <-> 2 <= t <= 5).
Proof.
  split; [discriminate|]. split; [discriminate|].
  apply (result_spans_start_y_to_end_y Z 0 Z.add Z.mul 10 x1 (-1) h1 3);
    discriminate.
Defined.



Lemma responses_wrap_around_witness :
  Forall (fun i => indexable Z x1 (i - -1)) [-4; -3; 1] /\
  map (stems Z)
    (fst (plot_shifted_impulse_responses Z 0 Z.mul [-4; -3; 1] x1 (-1) h1
            [3; 4] (-3, 7) 10 [])) =
    [([-1; 0], [1; 1]); ([0; 1], [2; 2]); ([4; 5], [1; 1])].
Proof.
  assert (H : Forall (fun i => indexable Z x1 (i - -1)) [-4; -3; 1])
    by (repeat constructor; unfold indexable, len; cbn; lia).
  split; [exact H|].
  rewrite (responses_wrap_around Z 0 Z.mul [-4; -3; 1] x1 (-1) h1 [3; 4]
             (-3, 7) 10 [] H).
  reflexivity.
Defined.

Lemma responses_stop_at_bad_index_witness :
  Forall (fun k => indexable Z x1 (k - -1)) [-1; 0] /\
  ~ indexable Z x1 (5 - -1) /\
  plot_shifted_impulse_responses Z 0 Z.mul ([-1; 0] ++ 5 :: [1]) x1 (-1) h1
    [3; 4] (-3, 7) 10 [] =
  (map (fun k => plot_signal_with_grid Z [3 + k; 4 + k]
                   (scale Z Z.mul (nth (Z.to_nat (k + 1)) x1 0) h1)
                   (-3, 7) 10 [] "C1"%string)
       [-1; 0],
   Raise IndexError).
Proof.
  assert (H : Forall (fun k => indexable Z x1 (k - -1)) [-1; 0])
    by (repeat constructor; unfold indexable, len; cbn; lia).
  assert (Hbad : ~ indexable Z x1 (5 - -1))
    by (unfold indexable, len; cbn; lia).
  split; [exact H|]. split; [exact Hbad|].
  rewrite (responses_stop_at_bad_index Z 0 Z.mul [-1; 0] [1] 5 x1 (-1) h1
             [3; 4] (-3, 7) 10 [] H Hbad).
  reflexivity.
Defined.
